(** * cardgame.py: the Card / Deck model

    A shallow embedding of the classes [Suit], [Rank], [Card] and [Deck] of
    [src/cardgame.py], followed by the properties of the deck that the
    specification states.

    Conventions of the embedding:
    - a Python [str] is a Rocq [string] holding its UTF-8 encoding, so the
      suit glyphs are three bytes long and string concatenation is [++];
    - a Python [list] is a Rocq [list] with index 0 at the head, so
      [list.append] adds at the tail and [list.pop()] removes the last
      element;
    - an exception is a value [Raise e] of the [result] type;
    - the two pieces of state that live outside the deck, the allocator of
      object identities and the generator behind the [random] module, make up
      the [World] that the effectful operations thread through. *)

From Stdlib Require Import ZArith.
From stdpp Require Import base list strings.

(** ** Enumerations *)

Inductive Suit := HEARTS | DIAMONDS | CLUBS | SPADES.

Inductive Rank :=
  ACE | TWO | THREE | FOUR | FIVE | SIX | SEVEN | EIGHT | NINE | TEN
| JACK | QUEEN | KING.

#[global] Instance Suit_eq_dec : EqDecision Suit.
Proof. solve_decision. Defined.

#[global] Instance Rank_eq_dec : EqDecision Rank.
Proof. solve_decision. Defined.

(** [member.value] *)
Definition Suit_value (s : Suit) : string :=
  match s with
  | HEARTS => "♥"
  | DIAMONDS => "♦"
  | CLUBS => "♣"
  | SPADES => "♠"
  end.

Definition Rank_value (r : Rank) : string :=
  match r with
  | ACE => "A" | TWO => "2" | THREE => "3" | FOUR => "4" | FIVE => "5"
  | SIX => "6" | SEVEN => "7" | EIGHT => "8" | NINE => "9" | TEN => "10"
  | JACK => "J" | QUEEN => "Q" | KING => "K"
  end.

(** Iterating over an [Enum] class yields its members in definition order. *)
Definition Suit_members : list Suit := [HEARTS; DIAMONDS; CLUBS; SPADES].

Definition Rank_members : list Rank :=
  [ACE; TWO; THREE; FOUR; FIVE; SIX; SEVEN; EIGHT; NINE; TEN;
   JACK; QUEEN; KING].

(** ** Results, exceptions and the world *)

Inductive exn := IndexError.

Inductive result (A : Type) :=
| Ok (a : A)
| Raise (e : exn).
Arguments Ok {A} a.
Arguments Raise {A} e.

(** [fresh] counts the Card objects constructed so far and is the identity
    the next one receives; [tape] and [cursor] stand for the hidden
    generator of the [random] module: the [k]-th request for a random number
    is answered from [tape k]. *)
Record World := mkWorld {
  fresh : nat;
  tape : nat → nat;
  cursor : nat
}.

Definition M (A : Type) : Type := World → result (A * World).

Definition ret {A} (a : A) : M A := λ w, Ok (a, w).

Definition bind {A B} (m : M A) (k : A → M B) : M B :=
  λ w, match m w with
       | Ok (a, w') => k a w'
       | Raise e => Raise e
       end.

Definition lift {A} (r : result A) : M A :=
  λ w, match r with
       | Ok a => Ok (a, w)
       | Raise e => Raise e
       end.

Notation "'let*' x := m 'in' k" := (bind m (λ x, k))
  (at level 10, x pattern, m at level 100, k at level 200).

(** [for x in xs: body], the loop body acting on the loop-carried state. *)
Fixpoint for_each {A S} (xs : list A) (body : A → S → M S) (s : S) : M S :=
  match xs with
  | [] => ret s
  | x :: xs' => let* s' := body x s in for_each xs' body s'
  end.

(** ** Card *)

(** [Card.__init__] stores [suit] and [rank].  The class defines neither
    [__eq__] nor [__hash__], so a Card is a plain Python object that carries
    its identity; [oid] makes that identity explicit. *)
Record Card := mkCard {
  oid : nat;
  suit : Suit;
  rank : Rank
}.

#[global] Instance Card_eq_dec : EqDecision Card.
Proof. solve_decision. Defined.

(** The constructor call [Card(suit, rank)]: a new object every time. *)
Definition Card__init__ (s : Suit) (r : Rank) : M Card :=
  λ w, Ok (mkCard (fresh w) s r,
           mkWorld (S (fresh w)) (tape w) (cursor w)).

(** An f-string joins the formatted pieces; formatting a [str] with an empty
    format specification gives the string itself. *)
Definition fstring (pieces : list string) : string :=
  foldr String.append "" pieces.

(** [Card.__repr__]: [f"{self.rank.value}{self.suit.value}"] *)
Definition Card__repr__ (self : Card) : string :=
  fstring [Rank_value (rank self); Suit_value (suit self)].

(** [c1 == c2]: with no [__eq__] in the class this is [object.__eq__],
    which compares identities. *)
Definition Card__eq__ (c1 c2 : Card) : bool :=
  bool_decide (oid c1 = oid c2).

(** The (suit, rank) pair a card stands for. *)
Definition card_key (c : Card) : Suit * Rank := (suit c, rank c).

(** ** The list operations the deck uses *)

(** [x.append(v)] *)
Definition list_append {A} (x : list A) (v : A) : list A := x ++ [v].

(** [x.pop()]: removes and returns the last item, [IndexError] on an empty
    list. *)
Definition list_pop {A} (x : list A) : result (A * list A) :=
  match last x with
  | Some v => Ok (v, removelast x)
  | None => Raise IndexError
  end.

(** [x[i]] for a non-negative index. *)
Definition list_getitem {A} (x : list A) (i : nat) : result A :=
  match x !! i with
  | Some v => Ok v
  | None => Raise IndexError
  end.

(** [x[i] = v] for a non-negative index. *)
Definition list_setitem {A} (x : list A) (i : nat) (v : A) : result (list A) :=
  if decide (i < length x) then Ok (<[i := v]> x) else Raise IndexError.

(** [x[i], x[j] = x[j], x[i]]: the right-hand side is evaluated first, left
    to right, then [x[i]] is assigned, then [x[j]]. *)
Definition swap {A} (i j : nat) (x : list A) : result (list A) :=
  match list_getitem x j with
  | Raise e => Raise e
  | Ok xj =>
      match list_getitem x i with
      | Raise e => Raise e
      | Ok xi =>
          match list_setitem x i xj with
          | Raise e => Raise e
          | Ok x' => list_setitem x' j xi
          end
      end
  end.

(** ** The [random] module *)

(** [Random._randbelow(n)], defined for [n > 0]: an integer in [[0, n)].
    The library draws random bits until the number they form is below [n];
    here the number it settles on is the next number of the tape reduced
    into the range, so that every choice in the range occurs for some
    tape. *)
Definition randbelow (n : nat) : M nat :=
  λ w, Ok (tape w (cursor w) `mod` n,
           mkWorld (fresh w) (tape w) (S (cursor w))).

(** [random.shuffle(x)], the in-place Fisher-Yates loop of the standard
    library:
    [for i in reversed(range(1, len(x))): j = randbelow(i + 1);
     x[i], x[j] = x[j], x[i]]. *)
Definition random_shuffle {A} (x : list A) : M (list A) :=
  for_each (rev (seq 1 (length x - 1)))
    (λ i x, let* j := randbelow (i + 1) in lift (swap i j x)) x.

(** ** Deck *)

Record Deck := mkDeck { cards : list Card }.

(** [Deck._initialize_deck] *)
Definition Deck__initialize_deck (self : Deck) : M Deck :=
  let* self :=
    for_each Suit_members (λ suit self,
      for_each Rank_members (λ rank self,
        let* c := Card__init__ suit rank in
        ret (mkDeck (list_append (cards self) c))) self) self in
  let* shuffled := random_shuffle (cards self) in
  ret (mkDeck shuffled).

(** [self.cards = v] *)
Definition set_cards (self : Deck) (v : list Card) : Deck := mkDeck v.

(** [Deck.__init__], that is the call [Deck()]: the new instance has no
    attribute until [self.cards = []] runs. *)
Definition Deck__init__ : M Deck :=
  let self := mkDeck [] in
  Deck__initialize_deck self.

(** Truth value of a list in a condition: non-empty. *)
Definition list_bool {A} (x : list A) : bool :=
  match x with
  | [] => false
  | _ :: _ => true
  end.

(** [Deck.draw_card]; the Python [None] is the [None] of [option]. *)
Definition draw_card (self : Deck) : result (option Card * Deck) :=
  if list_bool (cards self) then
    match list_pop (cards self) with
    | Ok (c, rest) => Ok (Some c, mkDeck rest)
    | Raise e => Raise e
    end
  else Ok (None, self).

(** [Deck.cards_remaining] *)
Definition cards_remaining (self : Deck) : Z :=
  Z.of_nat (length (cards self)).

(** [Deck.reset] *)
Definition reset (self : Deck) : M Deck :=
  let self := set_cards self [] in
  Deck__initialize_deck self.

(** ** Callers: sequences of operations on one deck *)

Inductive op := Draw | Reset.

(** One call on the deck; the step returns what the call returned ([None]
    for [reset], which returns nothing) and the deck and world after it. *)
Definition step (o : op) (st : Deck * World)
  : result (option Card * (Deck * World)) :=
  match o with
  | Draw =>
      match draw_card (fst st) with
      | Ok (r, d') => Ok (r, (d', snd st))
      | Raise e => Raise e
      end
  | Reset =>
      match reset (fst st) (snd st) with
      | Ok (d', w') => Ok (None, (d', w'))
      | Raise e => Raise e
      end
  end.

(** The calls of [ops] in order; the results are collected in call order. *)
Fixpoint run (ops : list op) (st : Deck * World)
  : result (list (option Card) * (Deck * World)) :=
  match ops with
  | [] => Ok ([], st)
  | o :: ops' =>
      match step o st with
      | Raise e => Raise e
      | Ok (r, st') =>
          match run ops' st' with
          | Raise e => Raise e
          | Ok (rs, st'') => Ok (r :: rs, st'')
          end
      end
  end.

(** [n] successive calls of [draw_card], the results in call order. *)
Fixpoint draw_n (n : nat) (d : Deck) : result (list (option Card) * Deck) :=
  match n with
  | 0 => Ok ([], d)
  | S n' =>
      match draw_card d with
      | Raise e => Raise e
      | Ok (r, d') =>
          match draw_n n' d' with
          | Raise e => Raise e
          | Ok (rs, d'') => Ok (r :: rs, d'')
          end
      end
  end.

(** The 52 (suit, rank) pairs: the Cartesian product of the two
    enumerations. *)
Definition all_pairs : list (Suit * Rank) := list_prod Suit_members Rank_members.

(** The cards that successive constructor calls create for the pairs [ks],
    the first of them receiving identity [n]. *)
Fixpoint make_cards (n : nat) (ks : list (Suit * Rank)) : list Card :=
  match ks with
  | [] => []
  | (s, r) :: ks' => mkCard n s r :: make_cards (S n) ks'
  end.

(** ** Predicates on decks *)

(** The decks a caller can hold: built by [Deck()] and then only touched
    through [draw_card] and [reset], in any world each time. *)
Inductive reachable : Deck → Prop :=
| reachable_new w d w' :
    Deck__init__ w = Ok (d, w') → reachable d
| reachable_draw d r d' :
    reachable d → draw_card d = Ok (r, d') → reachable d'
| reachable_reset d w d' w' :
    reachable d → reset d w = Ok (d', w') → reachable d'.

(** The invariant of reachable decks: no two cards of the same pair. *)
Definition distinct_pairs (d : Deck) : Prop := NoDup (card_key <$> cards d).

(** A deck holding the standard 52 cards: its pairs are, up to order, the
    Cartesian product of the suits and the ranks, none twice, each the pair
    of exactly one card. *)
Definition standard_52 (d : Deck) : Prop :=
  card_key <$> cards d ≡ₚ list_prod Suit_members Rank_members
  ∧ length (cards d) = 52
  ∧ NoDup (card_key <$> cards d)
  ∧ (∀ s r, length (filter (λ c, card_key c = (s, r)) (cards d)) = 1)
  ∧ cards_remaining d = 52%Z.

(** ** A concrete run *)

(** A world for the examples, and the deck that [Deck()] builds in it. *)
Definition w0 : World := mkWorld 0 (λ k, 7 * k + 3) 0.

Definition deck0 : Deck := Eval vm_compute in
  match Deck__init__ w0 with
  | Ok (d, _) => d
  | Raise _ => mkDeck []
  end.

(** ** The game loop

    The block under [if __name__ == "__main__"]: the state it keeps and what
    one frame does to it.  The module has no [import pygame]; the block is
    modelled as it runs once that name is bound, the names of the library
    taken with the library's meaning.  Of the drawing code only the row of
    the player's cards and the test that shows the message are modelled:
    the rest places text by the metrics of a font. *)



(** [pygame.Rect(x, y, width, height)] *)
Record Rect := mkRect { rect_x : Z; rect_y : Z; rect_w : Z; rect_h : Z }.

(** [Rect.collidepoint(pos)]: the left and top edges belong to the
    rectangle, the right and bottom edges do not. *)
Definition collidepoint (r : Rect) (pos : Z * Z) : bool :=
  bool_decide (rect_x r ≤ pos.1 ∧ pos.1 < rect_x r + rect_w r
               ∧ rect_y r ≤ pos.2 ∧ pos.2 < rect_y r + rect_h r)%Z.

(** [class Button] *)
Record Button := mkButton { rect : Rect; text : string; hovered : bool }.

Definition Button__init__ (x y width height : Z) (text : string) : Button :=
  mkButton (mkRect x y width height) text false.

Definition is_clicked (self : Button) (pos : Z * Z) : bool :=
  collidepoint (rect self) pos.

Definition update_hover (self : Button) (pos : Z * Z) : Button :=
  mkButton (rect self) (text self) (collidepoint (rect self) pos).

(** The variables of the block that outlive a frame. *)
Record Game := mkGame {
  deck : Deck;
  player_cards : list Card;
  draw_button : Button;
  reshuffle_button : Button;
  quit_button : Button;
  running : bool;
  message : string;
  message_timer : Z
}.

(** The statements before [while running]. *)
Definition game_init : M Game :=
  let* deck := Deck__init__ in
  ret (mkGame deck []
         (Button__init__ 50 600 150 60 "Draw Card")
         (Button__init__ 250 600 150 60 "Reshuffle")
         (Button__init__ 800 600 150 60 "Quit")
         true "Welcome to Card Game! Click 'Draw Card' to begin." 10).

(** An event, as far as the loop looks at it: its type. *)
Inductive EventType := QUIT | MOUSEBUTTONDOWN | OTHER_EVENT.

#[global] Instance EventType_eq_dec : EqDecision EventType.
Proof. solve_decision. Defined.

(** The body of [for event in pygame.event.get()].  A [Card] has neither
    [__bool__] nor [__len__], so [if card:] tells a card from [None];
    [f"You drew: {card}"] formats the card by its [__repr__]. *)
Definition handle_event (mouse_pos : Z * Z) (event : EventType) (g : Game)
  : M Game :=
  match event with
  | QUIT =>
      ret (mkGame (deck g) (player_cards g) (draw_button g)
             (reshuffle_button g) (quit_button g) false
             (message g) (message_timer g))
  | MOUSEBUTTONDOWN =>
      if is_clicked (draw_button g) mouse_pos then
        let* drawn := lift (draw_card (deck g)) in
        let card := drawn.1 in
        let deck' := drawn.2 in
        match card with
        | Some c =>
            ret (mkGame deck' (list_append (player_cards g) c)
                   (draw_button g) (reshuffle_button g) (quit_button g)
                   (running g)
                   (fstring ["You drew: "%string; Card__repr__ c]) 120)
        | None =>
            ret (mkGame deck' (player_cards g)
                   (draw_button g) (reshuffle_button g) (quit_button g)
                   (running g) "No cards left in deck!" 120)
        end
      else if is_clicked (reshuffle_button g) mouse_pos then
        let* deck' := reset (deck g) in
        ret (mkGame deck' []
               (draw_button g) (reshuffle_button g) (quit_button g)
               (running g) "Deck reshuffled! Cards returned to deck." 120)
      else if is_clicked (quit_button g) mouse_pos then
        ret (mkGame (deck g) (player_cards g) (draw_button g)
               (reshuffle_button g) (quit_button g) false
               (message g) (message_timer g))
      else ret g
  | OTHER_EVENT => ret g
  end.

(** One pass through the body of [while running], up to the drawing: the
    events of the frame, the hover states, the message timer. *)
Definition frame (mouse_pos : Z * Z) (events : list EventType) (g : Game)
  : M Game :=
  let* g := for_each events (handle_event mouse_pos) g in
  let g := mkGame (deck g) (player_cards g)
             (update_hover (draw_button g) mouse_pos)
             (update_hover (reshuffle_button g) mouse_pos)
             (update_hover (quit_button g) mouse_pos)
             (running g) (message g) (message_timer g) in
  ret (if bool_decide (message_timer g > 0)%Z
       then mkGame (deck g) (player_cards g) (draw_button g)
              (reshuffle_button g) (quit_button g) (running g) (message g)
              (message_timer g - 1)
       else g).


(** [while running:] over the frames that come, each with the mouse position
    and the events it finds. *)
Fixpoint main_loop (frames : list (Z * Z * list EventType)) (g : Game)
  : M Game :=
  match frames with
  | [] => ret g
  | (mouse_pos, events) :: frames' =>
      if running g then
        let* g' := frame mouse_pos events g in main_loop frames' g'
      else ret g
  end.

Definition main (frames : list (Z * Z * list EventType)) : M Game :=
  let* g := game_init in main_loop frames g.







(** The state in which the loop starts in the world [w0]. *)
Definition game0 : Game :=
  mkGame deck0 []
    (Button__init__ 50 600 150 60 "Draw Card")
    (Button__init__ 250 600 150 60 "Reshuffle")
    (Button__init__ 800 600 150 60 "Quit")
    true "Welcome to Card Game! Click 'Draw Card' to begin." 10.

(** * Properties *)

(** The initialisation unfolds to 52 constructor calls and 51 swaps; the
    proofs below go through its lemmas and never unfold it by
    simplification. *)
Arguments random_shuffle : simpl never.
Arguments Deck__initialize_deck : simpl never.
Arguments Deck__init__ : simpl never.
Arguments reset : simpl never.

(** ** Enumerations *)

Lemma Suit_members_complete (s : Suit) : s ∈ Suit_members.
Proof. apply list_elem_of_In. destruct s; simpl; tauto. Qed.

Lemma Rank_members_complete (r : Rank) : r ∈ Rank_members.
Proof. apply list_elem_of_In. destruct r; simpl; tauto. Qed.

(** No two members share a value, so the enumerations have no aliases. *)
Lemma Suit_value_inj (s1 s2 : Suit) : Suit_value s1 = Suit_value s2 → s1 = s2.
Proof. destruct s1, s2; simpl; intros H; first [reflexivity | discriminate H]. Qed.

Lemma Rank_value_inj (r1 r2 : Rank) : Rank_value r1 = Rank_value r2 → r1 = r2.
Proof. destruct r1, r2; simpl; intros H; first [reflexivity | discriminate H]. Qed.

Lemma all_pairs_length : length all_pairs = 52.
Proof. reflexivity. Qed.

Lemma all_pairs_NoDup : NoDup all_pairs.
Proof. apply (bool_decide_unpack _). vm_compute. exact I. Qed.

Lemma all_pairs_complete (k : Suit * Rank) : k ∈ all_pairs.
Proof.
  destruct k as [s r]. apply list_elem_of_In, in_prod; apply list_elem_of_In.
  - apply Suit_members_complete.
  - apply Rank_members_complete.
Qed.

(** ** List operations *)

Section list_ops.
Context {A : Type}.
Implicit Types (x : list A) (v : A).

Lemma list_pop_nil : list_pop (@nil A) = Raise IndexError.
Proof. reflexivity. Qed.

Lemma list_pop_snoc x v : list_pop (x ++ [v]) = Ok (v, x).
Proof. unfold list_pop. by rewrite last_snoc, removelast_last. Qed.

Lemma list_pop_Ok x v x' : list_pop x = Ok (v, x') ↔ x = x' ++ [v].
Proof.
  split.
  - unfold list_pop. destruct (last x) as [u|] eqn:E; [|discriminate].
    apply last_Some in E as [l ->]. rewrite removelast_last.
    by intros [= -> ->].
  - intros ->. apply list_pop_snoc.
Qed.

Lemma list_bool_true x : list_bool x = true ↔ x ≠ [].
Proof. destruct x; simpl; split; congruence. Qed.

Lemma insert_Permutation x i u v :
  x !! i = Some u → <[i := v]> x ≡ₚ v :: delete i x.
Proof.
  intros Hi. pose proof (lookup_lt_Some _ _ _ Hi) as Hlt.
  rewrite insert_take_drop, delete_take_drop by done.
  symmetry. apply Permutation_middle.
Qed.

(** A successful swap only rearranges the list. *)
Lemma swap_Ok i j x :
  i < length x → j < length x →
  ∃ x', swap i j x = Ok x' ∧ x' ≡ₚ x ∧ length x' = length x.
Proof.
  intros Hi Hj.
  destruct (lookup_lt_is_Some_2 x i Hi) as [xi Ei].
  destruct (lookup_lt_is_Some_2 x j Hj) as [xj Ej].
  unfold swap, list_getitem, list_setitem. rewrite Ej, Ei.
  rewrite decide_True by done.
  rewrite decide_True by (by rewrite length_insert).
  eexists; split; [reflexivity|]. split; [|by rewrite !length_insert].
  destruct (decide (i = j)) as [->|Hne].
  - rewrite list_insert_insert_eq. by rewrite list_insert_id.
  - assert (<[i:=xj]> x !! j = Some xj) as Ej'
      by (by rewrite list_lookup_insert_ne).
    etrans; [apply (insert_Permutation _ _ _ xi Ej')|].
    etrans; [|symmetry; apply (delete_Permutation x i xi Ei)].
    apply Permutation_skip, Permutation_cons_inv with xj.
    etrans; [symmetry; apply (delete_Permutation _ _ _ Ej')|].
    by apply insert_Permutation with xi.
Qed.
End list_ops.

(** ** The shuffle *)

Section shuffle.
Context {A : Type}.
Implicit Types (x : list A) (w : World).

(** The loop of [random.shuffle] over any indices that are in range: it
    never raises, takes one random number per index, constructs nothing
    and returns a rearrangement of its argument. *)
Lemma shuffle_loop_Ok (idx : list nat) x w :
  Forall (λ i, i < length x) idx →
  ∃ x',
    for_each idx
      (λ i x, let* j := randbelow (i + 1) in lift (swap i j x)) x w
    = Ok (x', mkWorld (fresh w) (tape w) (cursor w + length idx))
    ∧ x' ≡ₚ x.
Proof.
  revert x w. induction idx as [|i idx IH]; intros x w Hidx.
  - exists x. destruct w; simpl. by rewrite Nat.add_0_r.
  - apply Forall_cons in Hidx as [Hi Hidx].
    assert (tape w (cursor w) `mod` (i + 1) < length x) as Hj.
    { pose proof (Nat.mod_upper_bound (tape w (cursor w)) (i + 1)). lia. }
    destruct (swap_Ok i _ x Hi Hj) as (x1 & E1 & P1 & L1).
    destruct (IH x1 (mkWorld (fresh w) (tape w) (S (cursor w))))
      as (x' & E' & P').
    { by rewrite L1. }
    exists x'. split; [|by rewrite P'].
    cbn [for_each]. unfold bind at 1. unfold bind at 1.
    unfold randbelow at 1. rewrite E1. cbn [lift].
    rewrite E'. cbn [fresh tape cursor length]. do 3 f_equal. lia.
Qed.

Lemma random_shuffle_Ok x w :
  ∃ x',
    random_shuffle x w
    = Ok (x', mkWorld (fresh w) (tape w) (cursor w + (length x - 1)))
    ∧ x' ≡ₚ x.
Proof.
  destruct (shuffle_loop_Ok (rev (seq 1 (length x - 1))) x w)
    as (x' & E & P).
  { apply Forall_forall. intros i Hi.
    apply list_elem_of_In, in_rev, in_seq in Hi. lia. }
  rewrite length_rev, length_seq in E. by exists x'.
Qed.
End shuffle.

(** ** Building the 52 cards *)

Lemma make_cards_app n ks1 ks2 :
  make_cards n (ks1 ++ ks2)
  = make_cards n ks1 ++ make_cards (n + length ks1) ks2.
Proof.
  revert n. induction ks1 as [|[s r] ks1 IH]; intros n; simpl.
  - by rewrite Nat.add_0_r.
  - rewrite IH. do 3 f_equal. lia.
Qed.

Lemma make_cards_key n ks : card_key <$> make_cards n ks = ks.
Proof.
  revert n. induction ks as [|[s r] ks IH]; intros n; simpl; [done|].
  by rewrite IH.
Qed.

Lemma make_cards_oid n ks : oid <$> make_cards n ks = seq n (length ks).
Proof.
  revert n. induction ks as [|[s r] ks IH]; intros n; simpl; [done|].
  by rewrite IH.
Qed.

(** The inner loop, over the ranks of one suit. *)
Lemma rank_loop_Ok suit ranks self w :
  for_each ranks (λ rank self,
    let* c := Card__init__ suit rank in
    ret (mkDeck (list_append (cards self) c))) self w
  = Ok (mkDeck (cards self ++ make_cards (fresh w) (pair suit <$> ranks)),
        mkWorld (fresh w + length ranks) (tape w) (cursor w)).
Proof.
  revert self w. induction ranks as [|r ranks IH]; intros [cs] [n t c].
  - simpl. unfold ret. by rewrite app_nil_r, Nat.add_0_r.
  - cbn [for_each]. unfold bind at 1. unfold bind at 1.
    unfold Card__init__ at 1, ret at 1. rewrite IH. simpl.
    unfold list_append. rewrite <- app_assoc. simpl.
    do 3 f_equal. lia.
Qed.

(** The outer loop, over the suits. *)
Lemma suit_loop_Ok suits self w :
  for_each suits (λ suit self,
    for_each Rank_members (λ rank self,
      let* c := Card__init__ suit rank in
      ret (mkDeck (list_append (cards self) c))) self) self w
  = Ok (mkDeck (cards self
                ++ make_cards (fresh w) (list_prod suits Rank_members)),
        mkWorld (fresh w + length (list_prod suits Rank_members))
                (tape w) (cursor w)).
Proof.
  revert self w. induction suits as [|s suits IH]; intros [cs] [n t c].
  - simpl. unfold ret. by rewrite app_nil_r, Nat.add_0_r.
  - cbn [for_each]. unfold bind at 1. rewrite rank_loop_Ok, IH.
    cbn [cards fresh tape cursor list_prod].
    rewrite make_cards_app, length_app, <- app_assoc.
    rewrite !length_map, Nat.add_assoc. reflexivity.
Qed.

(** [_initialize_deck] never raises: it appends the 52 freshly constructed
    cards to the cards of [self] and rearranges the whole list. *)
Lemma initialize_deck_Ok self w :
  ∃ cs,
    Deck__initialize_deck self w
    = Ok (mkDeck cs,
          mkWorld (fresh w + 52) (tape w)
                  (cursor w + (length (cards self) + 51)))
    ∧ cs ≡ₚ cards self ++ make_cards (fresh w) all_pairs.
Proof.
  unfold Deck__initialize_deck, bind. rewrite suit_loop_Ok.
  cbn [cards].
  match goal with |- context [random_shuffle ?x ?w'] =>
    destruct (random_shuffle_Ok x w') as (cs & E & P); rewrite E end.
  exists cs. split; [|exact P].
  unfold ret. cbn [fresh tape cursor]. do 3 f_equal.
  rewrite length_app. fold all_pairs.
  assert (length (make_cards (fresh w) all_pairs) = 52) as ->; [|lia].
  by rewrite <- (length_fmap oid), make_cards_oid, length_seq.
Qed.

(** ** Construction and reset *)

Lemma Deck__init___Ok w :
  ∃ cs,
    Deck__init__ w
    = Ok (mkDeck cs, mkWorld (fresh w + 52) (tape w) (cursor w + 51))
    ∧ cs ≡ₚ make_cards (fresh w) all_pairs.
Proof.
  destruct (initialize_deck_Ok (mkDeck []) w) as (cs & E & P).
  exists cs. split; [exact E | exact P].
Qed.

Lemma reset_Ok self w :
  ∃ cs,
    reset self w
    = Ok (mkDeck cs, mkWorld (fresh w + 52) (tape w) (cursor w + 51))
    ∧ cs ≡ₚ make_cards (fresh w) all_pairs.
Proof.
  destruct (initialize_deck_Ok (mkDeck []) w) as (cs & E & P).
  exists cs. split; [exact E | exact P].
Qed.

Lemma reset_eq_init self w : reset self w = Deck__init__ w.
Proof. unfold reset, Deck__init__, set_cards. reflexivity. Qed.

(** What holds of a list of cards that is a rearrangement of the 52 cards
    just constructed. *)
Lemma full_keys n cs :
  cs ≡ₚ make_cards n all_pairs → card_key <$> cs ≡ₚ all_pairs.
Proof. intros ->. by rewrite make_cards_key. Qed.

Lemma full_oids n cs :
  cs ≡ₚ make_cards n all_pairs → oid <$> cs ≡ₚ seq n 52.
Proof. intros ->. by rewrite make_cards_oid. Qed.

Lemma full_length n cs : cs ≡ₚ make_cards n all_pairs → length cs = 52.
Proof.
  intros H. apply full_keys in H. apply Permutation_length in H.
  by rewrite length_fmap in H.
Qed.

(** The cards of a deck after construction or reset are new objects: their
    identities are the 52 that follow the ones handed out before. *)
Lemma reset_cards_are_new d w d' w' :
  reset d w = Ok (d', w') →
  oid <$> cards d' ≡ₚ seq (fresh w) 52
  ∧ ∀ c, c ∈ cards d' → fresh w ≤ oid c < fresh w + 52.
Proof.
  destruct (reset_Ok d w) as (cs & E & P). rewrite E. intros [= <- _].
  cbn [cards]. pose proof (full_oids _ _ P) as Ho. split; [exact Ho|].
  intros c Hc. apply (list_elem_of_fmap_2 oid) in Hc.
  rewrite Ho in Hc. apply elem_of_seq in Hc. lia.
Qed.

(** In a list without two cards of the same pair, a pair that occurs is the
    pair of exactly one card. *)
Lemma count_key_one (cs : list Card) (k : Suit * Rank) :
  NoDup (card_key <$> cs) → k ∈ card_key <$> cs →
  length (filter (λ c, card_key c = k) cs) = 1.
Proof.
  induction cs as [|c cs IH]; simpl; intros Hnd Hin.
  - by apply elem_of_nil in Hin.
  - apply NoDup_cons in Hnd as [Hc Hnd].
    rewrite filter_cons. destruct (decide (card_key c = k)) as [<-|Hne].
    + simpl. f_equal. apply length_zero_iff_nil.
      destruct (filter _ cs) as [|c' l] eqn:Ef; [done|].
      assert (c' ∈ filter (λ c0, card_key c0 = card_key c) cs) as Hc'
        by (rewrite Ef; left).
      apply list_elem_of_filter in Hc' as [E Hc'].
      destruct Hc. rewrite <- E. by apply list_elem_of_fmap_2.
    + apply IH; [done|]. apply elem_of_cons in Hin as [E|]; [|done].
      by destruct Hne.
Qed.

(** ** Drawing *)

Lemma draw_card_nil (d : Deck) : cards d = [] → draw_card d = Ok (None, d).
Proof. unfold draw_card. by intros ->. Qed.

Lemma draw_card_snoc (d : Deck) rest c :
  cards d = rest ++ [c] → draw_card d = Ok (Some c, mkDeck rest).
Proof.
  unfold draw_card. intros ->. rewrite list_pop_snoc.
  by destruct rest.
Qed.

(** [draw_card] never raises. *)
Lemma draw_card_cases (d : Deck) :
  cards d = [] ∧ draw_card d = Ok (None, d)
  ∨ ∃ rest c, cards d = rest ++ [c] ∧ draw_card d = Ok (Some c, mkDeck rest).
Proof.
  destruct (cards d) as [|c0 cs] eqn:E using rev_ind.
  - left. split; [done|]. by apply draw_card_nil.
  - right. exists cs, c0. split; [done|]. by apply draw_card_snoc.
Qed.

Lemma draw_n_Ok (n : nat) (rest drawn : list Card) :
  length drawn = n →
  draw_n n (mkDeck (rest ++ drawn)) = Ok (Some <$> reverse drawn, mkDeck rest).
Proof.
  revert drawn. induction n as [|n IH]; intros drawn Hlen.
  - apply nil_length_inv in Hlen as ->. simpl. by rewrite app_nil_r.
  - destruct drawn as [|c dr _] using rev_ind; [done|].
    rewrite length_app in Hlen. simpl in Hlen.
    cbn [draw_n]. rewrite (draw_card_snoc _ (rest ++ dr) c)
      by (by simpl; rewrite app_assoc).
    rewrite IH by lia. by rewrite reverse_snoc.
Qed.

Lemma draw_n_add (n m : nat) (d : Deck) :
  draw_n (n + m) d
  = match draw_n n d with
    | Raise e => Raise e
    | Ok (rs, d') =>
        match draw_n m d' with
        | Raise e => Raise e
        | Ok (rs', d'') => Ok (rs ++ rs', d'')
        end
    end.
Proof.
  revert d. induction n as [|n IH]; intros d; simpl.
  - by destruct (draw_n m d) as [[rs d']|e].
  - destruct (draw_card d) as [[r d1]|e]; [|done]. rewrite IH.
    destruct (draw_n n d1) as [[rs d2]|e]; [|done].
    by destruct (draw_n m d2) as [[rs' d3]|e].
Qed.

(** Drawing [n] cards from a deck that holds at least [n]. *)
Lemma draw_n_take (n : nat) (d : Deck) :
  n ≤ length (cards d) →
  draw_n n d
  = Ok (Some <$> reverse (drop (length (cards d) - n) (cards d)),
        mkDeck (take (length (cards d) - n) (cards d))).
Proof.
  intros Hn. destruct d as [cs]. simpl in *.
  rewrite <- (take_drop (length cs - n) cs) at 1.
  apply draw_n_Ok. rewrite length_drop. lia.
Qed.

(** ** Reachable decks *)


Lemma init_distinct_pairs w d w' :
  Deck__init__ w = Ok (d, w') → distinct_pairs d.
Proof.
  destruct (Deck__init___Ok w) as (cs & E & P). rewrite E. intros [= <- _].
  unfold distinct_pairs. simpl. rewrite (full_keys _ _ P).
  apply all_pairs_NoDup.
Qed.

Lemma draw_distinct_pairs d r d' :
  distinct_pairs d → draw_card d = Ok (r, d') → distinct_pairs d'.
Proof.
  unfold distinct_pairs. intros Hnd.
  destruct (draw_card_cases d) as [[_ E]|(rest & c & Ec & E)];
    rewrite E; intros [= _ <-]; [done|].
  rewrite Ec, fmap_app in Hnd. by apply NoDup_app in Hnd as [? _].
Qed.

Lemma reachable_distinct_pairs d : reachable d → distinct_pairs d.
Proof.
  induction 1 as [w d w' E|d r d' _ IH E|d w d' w' _ _ E].
  - by apply init_distinct_pairs in E.
  - by apply draw_distinct_pairs in E.
  - rewrite reset_eq_init in E. by apply init_distinct_pairs in E.
Qed.

Lemma distinct_pairs_length d : distinct_pairs d → length (cards d) ≤ 52.
Proof.
  intros Hnd. rewrite <- (length_fmap card_key), <- all_pairs_length.
  apply submseteq_length, NoDup_submseteq; [done|].
  intros k _. apply all_pairs_complete.
Qed.

Lemma step_reachable o d w r d' w' :
  reachable d → step o (d, w) = Ok (r, (d', w')) → reachable d'.
Proof.
  intros Hd. destruct o; cbn [step fst snd].
  - destruct (draw_card d) as [[r1 d1]|e] eqn:E; [|done].
    intros [= _ <- _]. by eapply reachable_draw.
  - destruct (reset d w) as [[d1 w1]|e] eqn:E; [|done].
    intros [= _ <- _]. by eapply reachable_reset.
Qed.

(** A sequence of calls on a reachable deck never raises and ends in a
    reachable deck. *)
Lemma run_reachable ops d w :
  reachable d →
  ∃ rs d' w', run ops (d, w) = Ok (rs, (d', w')) ∧ reachable d'.
Proof.
  revert d w. induction ops as [|o ops IH]; intros d w Hd.
  - by exists [], d, w.
  - assert (∃ r d1 w1, step o (d, w) = Ok (r, (d1, w1))) as (r & d1 & w1 & E).
    { destruct o; cbn [step fst snd].
      - destruct (draw_card_cases d) as [[_ ->]|(? & ? & _ & ->)]; eauto.
      - destruct (reset_Ok d w) as (cs & -> & _); eauto. }
    destruct (IH d1 w1) as (rs & d' & w' & E' & Hd').
    { by eapply step_reachable. }
    exists (r :: rs), d', w'. cbn [run]. by rewrite E, E'.
Qed.

(** ** The deck after construction or reset *)


Lemma full_standard_52 n cs :
  cs ≡ₚ make_cards n all_pairs → standard_52 (mkDeck cs).
Proof.
  intros P. pose proof (full_keys _ _ P) as K.
  pose proof (full_length _ _ P) as L.
  assert (NoDup (card_key <$> cs)) as Hnd
    by (rewrite K; apply all_pairs_NoDup).
  unfold standard_52, cards_remaining. cbn [cards].
  repeat split; [exact K|exact L|exact Hnd| |by rewrite L].
  intros s r. apply count_key_one; [exact Hnd|].
  rewrite K. apply all_pairs_complete.
Qed.

(** C1. Right after construction, and right after a reset of any deck, the
    deck owns exactly the Cartesian product of the 4 suits and the 13 ranks:
    52 cards, one for every (suit, rank) pair, none twice and none missing;
    its remaining-count is 52. *)
Theorem new_or_reset_deck_is_standard_52 :
  (∀ w, ∃ d w', Deck__init__ w = Ok (d, w') ∧ standard_52 d)
  ∧ (∀ d0 w, ∃ d w', reset d0 w = Ok (d, w') ∧ standard_52 d).
Proof.
  split.
  - intros w. destruct (Deck__init___Ok w) as (cs & E & P).
    eexists _, _. split; [exact E|]. by apply full_standard_52 with (fresh w).
  - intros d0 w. destruct (reset_Ok d0 w) as (cs & E & P).
    eexists _, _. split; [exact E|]. by apply full_standard_52 with (fresh w).
Qed.

(** ** Drawing *)

(** C2. On a non-empty deck [draw_card] returns the card at the end of the
    list and removes exactly that one: the other cards stay as they were, in
    their order; in a deck a caller can hold, the drawn card, and its
    (suit, rank) pair, are no longer in the deck. *)
Theorem draw_card_removes_top (d : Deck) :
  cards d ≠ [] →
  ∃ c rest,
    draw_card d = Ok (Some c, mkDeck rest)
    ∧ last (cards d) = Some c
    ∧ cards d = rest ++ [c]
    ∧ length rest + 1 = length (cards d)
    ∧ (reachable d → (c ∉ rest) ∧ (card_key c ∉ card_key <$> rest)).
Proof.
  intros Hne. destruct (draw_card_cases d) as [[E _]|(rest & c & Ec & E)];
    [done|].
  exists c, rest. rewrite Ec, last_snoc, length_app. cbn [length].
  split; [exact E|]. do 3 (split; [reflexivity|]).
  intros Hd. apply reachable_distinct_pairs in Hd. unfold distinct_pairs in Hd.
  rewrite Ec, fmap_app in Hd. apply NoDup_app in Hd as (_ & Hd & _).
  assert (card_key c ∉ (card_key <$> rest)) as Hk.
  { intros Hin. apply (Hd _ Hin). cbn. left. }
  split; [|exact Hk]. intros Hin. by apply Hk, list_elem_of_fmap_2.
Qed.

(** C3. Drawing from an empty deck returns [None] and raises nothing;
    [draw_card] never raises at all and returns [None] only on an empty
    deck; construction and reset never raise, and the remaining-count is
    the length of the card list. *)
Theorem only_failure_is_empty_draw :
  (∀ d, cards d = [] → draw_card d = Ok (None, d))
  ∧ (∀ d, ∃ r d', draw_card d = Ok (r, d') ∧ (r = None ↔ cards d = []))
  ∧ (∀ w, ∃ d w', Deck__init__ w = Ok (d, w'))
  ∧ (∀ d w, ∃ d' w', reset d w = Ok (d', w'))
  ∧ (∀ d, cards_remaining d = Z.of_nat (length (cards d))).
Proof.
  split; [exact draw_card_nil|]. split; [|split; [|split]].
  - intros d. destruct (draw_card_cases d) as [[E ->]|(rest & c & Ec & ->)].
    + by exists None, d.
    + exists (Some c), (mkDeck rest). split; [done|]. rewrite Ec.
      split; [done|]. intros H. by destruct rest.
  - intros w. destruct (Deck__init___Ok w) as (cs & E & _). eauto.
  - intros d w. destruct (reset_Ok d w) as (cs & E & _). eauto.
  - done.
Qed.

(** What [n] draws do to a deck of 52 cards. *)
Lemma draw_n_from_52 (N : nat) (cs : list Card) :
  N ≤ 52 → length cs = 52 →
  ∃ rs d',
    draw_n N (mkDeck cs) = Ok (rs, d')
    ∧ length rs = N
    ∧ cards_remaining d' = (52 - Z.of_nat N)%Z.
Proof.
  intros HN L. eexists _, _. split.
  - apply draw_n_take. cbn [cards]. lia.
  - cbn [cards]. unfold cards_remaining. cbn [cards].
    rewrite length_fmap, length_reverse, length_drop, length_take. lia.
Qed.

(** C4. After [N] draws, [0 <= N <= 52], from a deck that was just
    constructed or reset, the remaining-count is [52 - N]; the
    remaining-count of any deck is the number of cards it holds. *)
Theorem remaining_after_N_draws (N : nat) :
  N ≤ 52 →
  (∀ w, ∃ d w' rs d',
      Deck__init__ w = Ok (d, w')
      ∧ draw_n N d = Ok (rs, d')
      ∧ length rs = N
      ∧ cards_remaining d' = (52 - Z.of_nat N)%Z)
  ∧ (∀ d0 w, ∃ d w' rs d',
      reset d0 w = Ok (d, w')
      ∧ draw_n N d = Ok (rs, d')
      ∧ length rs = N
      ∧ cards_remaining d' = (52 - Z.of_nat N)%Z)
  ∧ (∀ d, cards_remaining d = Z.of_nat (length (cards d))).
Proof.
  intros HN. split; [|split; [|done]].
  - intros w. destruct (Deck__init___Ok w) as (cs & E & P).
    destruct (draw_n_from_52 N cs HN (full_length _ _ P)) as (rs & d' & H).
    eexists _, _, rs, d'. split; [exact E|exact H].
  - intros d0 w. destruct (reset_Ok d0 w) as (cs & E & P).
    destruct (draw_n_from_52 N cs HN (full_length _ _ P)) as (rs & d' & H).
    eexists _, _, rs, d'. split; [exact E|exact H].
Qed.

(** C5. 52 draws from a deck that was just constructed return 52 cards,
    no two of the same (suit, rank) pair, that cover all 52 pairs; the 53rd
    draw returns [None]. *)
Theorem draw_52_then_none (w : World) :
  ∃ d w' cs d',
    Deck__init__ w = Ok (d, w')
    ∧ draw_n 52 d = Ok (Some <$> cs, d')
    ∧ length cs = 52
    ∧ NoDup (card_key <$> cs)
    ∧ (∀ s r, (s, r) ∈ card_key <$> cs)
    ∧ card_key <$> cs ≡ₚ list_prod Suit_members Rank_members
    ∧ draw_card d' = Ok (None, d')
    ∧ draw_n 53 d = Ok ((Some <$> cs) ++ [None], d').
Proof.
  destruct (Deck__init___Ok w) as (cs & E & P).
  pose proof (full_length _ _ P) as L.
  assert (card_key <$> reverse cs ≡ₚ all_pairs) as K.
  { rewrite fmap_reverse, reverse_Permutation. by apply full_keys with (fresh w). }
  assert (draw_n 52 (mkDeck cs) = Ok (Some <$> reverse cs, mkDeck [])) as D.
  { by apply (draw_n_Ok 52 [] cs). }
  eexists _, _, (reverse cs), (mkDeck []).
  split; [exact E|]. split; [exact D|].
  split; [by rewrite length_reverse|].
  split; [rewrite K; apply all_pairs_NoDup|].
  split; [intros s r; rewrite K; apply all_pairs_complete|].
  split; [exact K|]. split; [done|].
  change 53 with (52 + 1). by rewrite draw_n_add, D.
Qed.

(** ** The display string *)

(** C6. The display string of a card is its rank label immediately followed
    by its suit glyph; the ace of spades renders as "A♠" and the ten of
    hearts as "10♥". *)
Theorem Card__repr___rank_then_suit :
  (∀ c, Card__repr__ c
        = String.append (Rank_value (rank c)) (Suit_value (suit c)))
  ∧ (∀ n, Card__repr__ (mkCard n SPADES ACE) = "A♠"%string)
  ∧ (∀ n, Card__repr__ (mkCard n HEARTS TEN) = "10♥"%string).
Proof.
  split; [|split; reflexivity].
  intros [n s r]. unfold Card__repr__, fstring. cbn [foldr rank suit].
  by destruct s.
Qed.

(** The display string determines the pair. *)
Lemma Card__repr___inj (c1 c2 : Card) :
  Card__repr__ c1 = Card__repr__ c2 → card_key c1 = card_key c2.
Proof.
  destruct c1 as [n1 s1 r1], c2 as [n2 s2 r2]. unfold card_key. cbn [suit rank].
  destruct s1, r1, s2, r2; intros H; first [reflexivity | discriminate H].
Qed.

(** ** The size of the deck over sequences of calls *)

(** C7. On a deck a caller can hold, the remaining-count lies between 0 and
    52; a call of [draw_card] lowers it by one, or leaves it at 0 on an
    empty deck, and a call of [reset] sets it to 52; no call raises, and the
    deck after the call is again one a caller can hold, so this holds along
    every sequence of calls. *)
Theorem size_shrinks_by_draw_or_resets_to_52 (d : Deck) :
  reachable d →
  (0 ≤ cards_remaining d ≤ 52)%Z
  ∧ (∀ o w, ∃ r d' w',
      step o (d, w) = Ok (r, (d', w'))
      ∧ reachable d'
      ∧ (0 ≤ cards_remaining d' ≤ 52)%Z
      ∧ match o with
        | Draw =>
            (cards_remaining d' ≤ cards_remaining d)%Z
            ∧ (cards_remaining d' = (cards_remaining d - 1)%Z
               ∨ cards_remaining d = 0%Z ∧ cards_remaining d' = 0%Z)
        | Reset => cards_remaining d' = 52%Z
        end)
  ∧ (∀ ops w, ∃ rs d' w',
      run ops (d, w) = Ok (rs, (d', w'))
      ∧ reachable d'
      ∧ (0 ≤ cards_remaining d' ≤ 52)%Z).
Proof.
  intros Hd.
  assert (∀ d1, reachable d1 → (0 ≤ cards_remaining d1 ≤ 52)%Z) as Hsize.
  { intros d1 H1. apply reachable_distinct_pairs, distinct_pairs_length in H1.
    unfold cards_remaining. lia. }
  split; [by apply Hsize|]. split; cycle 1.
  { intros ops w. destruct (run_reachable ops d w Hd) as (rs & d' & w' & E & H).
    exists rs, d', w'. split; [exact E|]. split; [exact H|by apply Hsize]. }
  intros o w. destruct o; cbn [step fst snd].
  - destruct (draw_card_cases d) as [[E E']|(rest & c & E & E')]; rewrite E'.
    + exists None, d, w. split; [reflexivity|]. split; [exact Hd|].
      split; [by apply Hsize|]. unfold cards_remaining. rewrite E.
      cbn [length]. lia.
    + assert (reachable (mkDeck rest)) as Hd'
        by (by apply reachable_draw with d (Some c)).
      exists (Some c), (mkDeck rest), w. split; [reflexivity|].
      split; [exact Hd'|]. split; [by apply Hsize|].
      unfold cards_remaining. rewrite E, length_app. cbn [cards length]. lia.
  - destruct (reset_Ok d w) as (cs & E & P).
    assert (reachable (mkDeck cs)) as Hd'
      by (eapply reachable_reset; [exact Hd|exact E]).
    rewrite E. eexists None, (mkDeck cs), _. split; [reflexivity|].
    split; [exact Hd'|]. split; [by apply Hsize|].
    unfold cards_remaining. cbn [cards]. by rewrite (full_length _ _ P).
Qed.

(** ** Identity of cards *)

(** C8, as the code has it. Two cards of equal suit and equal rank stand for
    the same pair and show the same display string, and they compare equal
    exactly when they are one and the same object. *)
Theorem equal_fields_same_display (c1 c2 : Card) :
  suit c1 = suit c2 → rank c1 = rank c2 →
  card_key c1 = card_key c2
  ∧ Card__repr__ c1 = Card__repr__ c2
  ∧ (Card__eq__ c1 c2 = true ↔ c1 = c2).
Proof.
  destruct c1 as [n1 s1 r1], c2 as [n2 s2 r2]. cbn [suit rank].
  intros -> ->. split; [reflexivity|]. split; [reflexivity|].
  unfold Card__eq__. cbn [oid]. rewrite bool_decide_eq_true.
  split; [by intros ->|by intros [= ->]].
Qed.

(** ** Drawing from an empty deck *)

(** C9. On a deck whose remaining-count is 0, [draw_card] returns [None] and
    the deck is unchanged; the world is not touched, so whatever calls
    follow run exactly as they would have without that call. *)
Theorem empty_draw_changes_nothing (d : Deck) :
  cards_remaining d = 0%Z →
  draw_card d = Ok (None, d)
  ∧ cards_remaining d = 0%Z
  ∧ ∀ w,
      step Draw (d, w) = Ok (None, (d, w))
      ∧ ∀ ops,
          run (Draw :: ops) (d, w)
          = match run ops (d, w) with
            | Ok (rs, st) => Ok (None :: rs, st)
            | Raise e => Raise e
            end.
Proof.
  intros H0. assert (cards d = []) as E.
  { apply nil_length_inv. unfold cards_remaining in H0. lia. }
  pose proof (draw_card_nil d E) as D.
  split; [exact D|]. split; [exact H0|]. intros w.
  assert (step Draw (d, w) = Ok (None, (d, w))) as S
    by (cbn [step fst snd]; by rewrite D).
  split; [exact S|]. intros ops. cbn [run]. by rewrite S.
Qed.

(** ** Reset and construction *)

(** C10. [reset] of any deck is the same state transformer as the
    construction of a new deck: in the same world both return the same
    deck and world, so the decks that a reset can produce are those that a
    construction can produce, and in any two worlds the two decks hold the
    same pairs up to order. *)
Theorem reset_is_construction :
  (∀ d w, reset d w = Deck__init__ w)
  ∧ (∀ d d',
       (∃ w w', reset d w = Ok (d', w'))
       ↔ (∃ w w', Deck__init__ w = Ok (d', w')))
  ∧ (∀ d w1 w2, ∃ d1 w1' d2 w2',
       reset d w1 = Ok (d1, w1')
       ∧ Deck__init__ w2 = Ok (d2, w2')
       ∧ card_key <$> cards d1 ≡ₚ card_key <$> cards d2).
Proof.
  split; [exact reset_eq_init|]. split.
  - intros d d'. split; intros (w & w' & E); exists w, w'.
    + by rewrite <- (reset_eq_init d).
    + by rewrite reset_eq_init.
  - intros d w1 w2.
    destruct (reset_Ok d w1) as (cs1 & E1 & P1).
    destruct (Deck__init___Ok w2) as (cs2 & E2 & P2).
    eexists (mkDeck cs1), _, (mkDeck cs2), _.
    split; [exact E1|]. split; [exact E2|]. cbn [cards].
    by rewrite (full_keys _ _ P1), (full_keys _ _ P2).
Qed.

(** * The concrete run *)

Lemma deck0_init : Deck__init__ w0 = Ok (deck0, mkWorld 52 (tape w0) 51).
Proof. vm_compute. reflexivity. Qed.

Lemma deck0_reachable : reachable deck0.
Proof. exact (reachable_new w0 deck0 _ deck0_init). Qed.

(** The scenario of the specification: three draws leave 49 cards and return
    three different cards; after a reset the deck gives exactly 52 cards
    before it returns [None]. *)
Example three_draws_then_reset :
  match draw_n 3 deck0 with
  | Ok (rs, d) =>
      (λ r : option Card, Card__repr__ <$> r) <$> rs
      = [Some "4♥"%string; Some "J♥"%string; Some "5♦"%string]
      ∧ cards_remaining d = 49%Z
      ∧ match reset d (mkWorld 52 (tape w0) 51) with
        | Ok (d', _) =>
            cards_remaining d' = 52%Z
            ∧ match draw_n 53 d' with
              | Ok (rs', _) =>
                  length (filter (λ r, r ≠ None) rs') = 52
                  ∧ last rs' = Some None
              | Raise _ => False
              end
        | Raise _ => False
        end
  | Raise _ => False
  end.
Proof. vm_compute. repeat split. Qed.

(** [draw_card_removes_top] at the deck built in [w0]. *)
Lemma draw_card_removes_top_witness :
  cards deck0 ≠ []
  ∧ ∃ c rest,
      draw_card deck0 = Ok (Some c, mkDeck rest)
      ∧ last (cards deck0) = Some c
      ∧ cards deck0 = rest ++ [c]
      ∧ length rest + 1 = length (cards deck0)
      ∧ (reachable deck0 → (c ∉ rest) ∧ (card_key c ∉ card_key <$> rest)).
Proof.
  split; [discriminate|]. apply (draw_card_removes_top deck0). discriminate.
Defined.

(** [remaining_after_N_draws] at three draws. *)
Lemma remaining_after_N_draws_witness :
  3 ≤ 52
  ∧ ∀ w, ∃ d w' rs d',
      Deck__init__ w = Ok (d, w')
      ∧ draw_n 3 d = Ok (rs, d')
      ∧ length rs = 3
      ∧ cards_remaining d' = (52 - Z.of_nat 3)%Z.
Proof.
  split; [lia|].
  destruct (remaining_after_N_draws 3) as [H _]; [lia|exact H].
Defined.

(** [size_shrinks_by_draw_or_resets_to_52] at the deck built in [w0]. *)
Lemma size_shrinks_by_draw_or_resets_to_52_witness :
  reachable deck0 ∧ (0 ≤ cards_remaining deck0 ≤ 52)%Z.
Proof.
  split; [exact deck0_reachable|].
  destruct (size_shrinks_by_draw_or_resets_to_52 deck0) as [H _];
    [exact deck0_reachable|exact H].
Defined.

(** C8 as the specification states it fails: two constructor calls with the
    same suit and rank give two cards that do not compare equal. *)
Lemma same_pair_cards_not_equal :
  let c1 := mkCard 0 SPADES ACE in
  let c2 := mkCard 1 SPADES ACE in
  Card__init__ SPADES ACE w0 = Ok (c1, mkWorld 1 (tape w0) 0)
  ∧ Card__init__ SPADES ACE (mkWorld 1 (tape w0) 0)
    = Ok (c2, mkWorld 2 (tape w0) 0)
  ∧ suit c1 = suit c2
  ∧ rank c1 = rank c2
  ∧ Card__eq__ c1 c2 = false
  ∧ c1 ≠ c2
  ∧ ¬ (∀ a b : Card, suit a = suit b → rank a = rank b →
                     Card__eq__ a b = true).
Proof.
  cbn zeta. do 5 (split; [reflexivity|]). split; [discriminate|].
  intros H. specialize (H (mkCard 0 SPADES ACE) (mkCard 1 SPADES ACE)
                          eq_refl eq_refl).
  discriminate H.
Qed.

(** [equal_fields_same_display] at the same two cards. *)
Lemma equal_fields_same_display_witness :
  suit (mkCard 0 SPADES ACE) = suit (mkCard 1 SPADES ACE)
  ∧ rank (mkCard 0 SPADES ACE) = rank (mkCard 1 SPADES ACE)
  ∧ Card__repr__ (mkCard 0 SPADES ACE) = Card__repr__ (mkCard 1 SPADES ACE)
  ∧ (Card__eq__ (mkCard 0 SPADES ACE) (mkCard 1 SPADES ACE) = true
     ↔ mkCard 0 SPADES ACE = mkCard 1 SPADES ACE).
Proof.
  split; [reflexivity|]. split; [reflexivity|].
  destruct (equal_fields_same_display (mkCard 0 SPADES ACE)
              (mkCard 1 SPADES ACE)) as (_ & H1 & H2);
    [reflexivity|reflexivity|].
  split; [exact H1|exact H2].
Defined.

(** [empty_draw_changes_nothing] at the empty deck. *)
Lemma empty_draw_changes_nothing_witness :
  cards_remaining (mkDeck []) = 0%Z
  ∧ draw_card (mkDeck []) = Ok (None, mkDeck []).
Proof.
  split; [reflexivity|].
  destruct (empty_draw_changes_nothing (mkDeck [])) as [H _];
    [reflexivity|exact H].
Defined.

(** * The game loop *)






















(** * More on the cards and the deck *)

(** X8. The display string tells the card: two cards show the same string
    exactly when they have the same suit and the same rank. *)
Theorem display_string_identifies_the_pair (c1 c2 : Card) :
  Card__repr__ c1 = Card__repr__ c2 ↔ suit c1 = suit c2 ∧ rank c1 = rank c2.
Proof.
  split.
  - intros H. apply Card__repr___inj in H. unfold card_key in H.
    by injection H.
  - intros [Hs Hr]. unfold Card__repr__. by rewrite Hs, Hr.
Qed.

(** X9. [_initialize_deck] does not empty the deck it is given: it keeps the
    cards that are there, adds 52 new ones, one for every (suit, rank)
    pair, and shuffles them all.  So it leaves a standard deck of 52
    exactly when the card list was empty, as it is where [__init__] and
    [reset] call it. *)
Theorem initialize_deck_adds_52_cards (self : Deck) (w : World) :
  ∃ d' w',
    Deck__initialize_deck self w = Ok (d', w')
    ∧ card_key <$> cards d'
      ≡ₚ (card_key <$> cards self) ++ list_prod Suit_members Rank_members
    ∧ length (cards d') = length (cards self) + 52
    ∧ (∀ c, c ∈ cards self → c ∈ cards d')
    ∧ (standard_52 d' ↔ cards self = []).
Proof.
  destruct (initialize_deck_Ok self w) as (cs & E & P).
  assert (length cs = length (cards self) + 52) as L.
  { rewrite P, length_app.
    by rewrite <- (length_fmap oid (make_cards _ _)), make_cards_oid,
      length_seq. }
  eexists _, _. split; [exact E|]. clear E. cbn [cards].
  split; [by rewrite P, fmap_app, make_cards_key|]. split; [exact L|].
  split; [intros c Hc; rewrite P; apply elem_of_app; by left|].
  split.
  - intros (_ & L52 & _). cbn [cards] in L52. apply nil_length_inv. lia.
  - intros E0. rewrite E0 in P. by apply full_standard_52 with (fresh w).
Qed.

Lemma draw_n_empty (n : nat) :
  draw_n n (mkDeck []) = Ok (replicate n None, mkDeck []).
Proof.
  induction n as [|n IH]; [done|]. cbn [draw_n replicate].
  rewrite (draw_card_nil (mkDeck [])) by done. by rewrite IH.
Qed.

(** X10. Any number of draws from any deck raises nothing: the cards come
    out last first, as many as there are, and every draw after the deck has
    run empty returns [None]; what stays in the deck is the front of the
    list, untouched. *)
Theorem draws_return_the_cards_last_first (n : nat) (d : Deck) :
  draw_n n d
  = Ok ((Some <$> take n (reverse (cards d)))
          ++ replicate (n - length (cards d)) None,
        mkDeck (take (length (cards d) - n) (cards d))).
Proof.
  destruct (decide (n ≤ length (cards d))) as [Hle|Hgt].
  - rewrite draw_n_take by done. rewrite take_reverse.
    replace (n - length (cards d)) with 0 by lia.
    cbn [replicate]. by rewrite app_nil_r.
  - replace n with (length (cards d) + (n - length (cards d))) at 1 by lia.
    rewrite draw_n_add, draw_n_take by done.
    rewrite Nat.sub_diag, drop_0, take_0, draw_n_empty.
    rewrite take_ge by (rewrite length_reverse; lia).
    replace (length (cards d) - n) with 0 by lia. by rewrite take_0.
Qed.



(** ** Every order can come out of the shuffle *)

Section reach.
Context {A : Type}.
Implicit Types (x y s : list A).




End reach.


(** * The concrete run, continued *)

Lemma game0_init : game_init w0 = Ok (game0, mkWorld 52 (tape w0) 51).
Proof. vm_compute. reflexivity. Qed.

(** Two clicks on the draw button, a click beside the buttons, then a click
    on the reshuffle button and a frame with a QUIT event and one more
    click on the draw button; a last frame that is never run. *)
Example a_short_game :
  match main [ ((100, 620)%Z, [MOUSEBUTTONDOWN]);
               ((100, 620)%Z, [MOUSEBUTTONDOWN; OTHER_EVENT]);
               ((220, 620)%Z, [MOUSEBUTTONDOWN]) ] w0 with
  | Ok (g, _) =>
      Card__repr__ <$> player_cards g = ["4♥"%string; "J♥"%string]
      ∧ cards_remaining (deck g) = 50%Z
      ∧ message g = "You drew: J♥"%string
      ∧ message_timer g = 118%Z
      ∧ match main_loop [ ((300, 620)%Z, [MOUSEBUTTONDOWN]);
                          ((100, 620)%Z, [QUIT; MOUSEBUTTONDOWN]);
                          ((100, 620)%Z, [MOUSEBUTTONDOWN]) ] g
                (mkWorld 52 (tape w0) 51) with
        | Ok (g', _) =>
            length (player_cards g') = 1
            ∧ cards_remaining (deck g') = 51%Z
            ∧ running g' = false
        | Raise _ => False
        end
  | Raise _ => False
  end.
Proof. vm_compute. repeat split. Qed.






